(** * Collector discovery of the target allocator: list, watch, reconnect

    A shallow embedding of package [collector] (the Kubernetes pod watcher
    of the OpenTelemetry target allocator): [Client.Watch], [restartWatch],
    [runWatch] and [Client.Close].

    The program talks to three things it does not control: the API server
    (one [List] call, then one [Watch] subscription per session), the Go
    runtime (which case of a [select] is taken, what time it is) and
    whoever calls [Close] from another goroutine.  Their answers are read
    from a script; the program's own steps are functions in a small monad
    that threads the process state and records every observable action
    (log lines, API calls, callback invocations) in a trace.

    The two log calls that follow the endless [for] loops of [Watch] and
    [runWatch] cannot be reached and have no counterpart here. *)

From stdpp Require Import gmap strings list.
From Stdlib Require Import ZArith Lia.

Local Open Scope Z_scope.

(** ** The data the program handles *)

Module allocation.
(** Modelled from the spec: package [cmd/otel-allocator/allocation] is
    imported by the watcher but is not part of the sources at hand.  The
    specification gives a collector one attribute used here, its name,
    and [NewCollector] builds the collector of that name. *)
Record Collector : Type := { Name : string }.

Definition NewCollector (name : string) : Collector := {| Name := name |}.
End allocation.

Module time.
(** [time.Duration] counts nanoseconds; a point in time is taken as the
    nanoseconds since some epoch. *)
Definition Duration : Type := Z.
Definition Time : Type := Z.

Definition Nanosecond : Duration := 1.
Definition Microsecond : Duration := 1000 * Nanosecond.
Definition Millisecond : Duration := 1000 * Microsecond.
Definition Second : Duration := 1000 * Millisecond.
Definition Minute : Duration := 60 * Second.
End time.

Module context.
(** What the watcher reads of a [context.Context]: its deadline.
    Cancellation from outside is an input of each wait (see [Round]). *)
Record Context : Type := { Deadline : option time.Time }.

Definition Background : Context := {| Deadline := None |}.

(** [context.WithTimeout parent d], called at time [now]: the deadline
    is [now + d] unless the parent's is earlier. *)
Definition WithTimeout (parent : Context) (now : time.Time)
    (d : time.Duration) : Context :=
  {| Deadline := Some (match Deadline parent with
                       | Some p => if p <? now + d then p else now + d
                       | None => now + d
                       end) |}.

(** Is the deadline of [ctx] reached at time [now]? *)
Definition expired (ctx : Context) (now : time.Time) : bool :=
  match Deadline ctx with
  | Some d => d <=? now
  | None => false
  end.
End context.

Module v1.
(** The two fields of a pod that the watcher reads. *)
Record Pod : Type := {
  Name : string;
  DeletionTimestamp : option time.Time
}.
End v1.

Module metav1.
Record ListOptions : Type := { LabelSelector : string }.
End metav1.

Module watch.
Inductive EventType : Type := Added | Modified | Deleted | Bookmark | Error.

(** [runtime.Object] is an interface; the watcher only asks whether the
    dynamic type is [*v1.Pod]. *)
Inductive RuntimeObject : Type :=
| PodObject (pod : v1.Pod)
| OtherObject (kind : string).

(** Go's field [Type] is spelled [Type_] here. *)
Record Event : Type := { Type_ : EventType; Object : RuntimeObject }.
End watch.

(** The membership set: [map[string]*allocation.Collector]. *)
Abbreviation MembershipSet := (gmap string allocation.Collector).

(** ** Observable actions and the process state *)

Inductive Action : Type :=
| LogInfo (msg : string)
| LogError (err msg : string)
| ListPods (ns : string) (ctx : context.Context) (opts : metav1.ListOptions)
| StartTimeout (now : time.Time) (d : time.Duration)
| WatchPods (ns : string) (ctx : context.Context) (opts : metav1.ListOptions)
| CancelTimeout (ctx : context.Context)
| Callback (collectors : MembershipSet).

Record World : Type := {
  collectorMap : MembershipSet;      (* the one map shared with the callback *)
  closeChan : bool;                  (* has [k.close] been closed? *)
  collectorsDiscovered : Z;          (* the gauge *)
  trace : list Action
}.

(** How a run of the program ends, as far as the script goes. *)
Inductive Outcome (A : Type) : Type :=
| Ret (a : A)            (* the function returned [a] *)
| Exit (code : Z)        (* [os.Exit] ended the process *)
| Panic (msg : string)   (* a run-time panic ended the process *)
| Pending.               (* blocked: the script has no further answer *)
Arguments Ret {A} a.
Arguments Exit {A} code.
Arguments Panic {A} msg.
Arguments Pending {A}.

Definition M (A : Type) : Type := World -> Outcome A * World.

#[global] Instance M_ret : MRet M := fun A a w => (Ret a, w).

#[global] Instance M_bind : MBind M := fun A B f m w =>
  match m w with
  | (Ret a, w') => f a w'
  | (Exit c, w') => (Exit c, w')
  | (Panic s, w') => (Panic s, w')
  | (Pending, w') => (Pending, w')
  end.

(** State updates, one per field that the program writes. *)
Definition record (acts : list Action) (w : World) : World :=
  {| collectorMap := collectorMap w; closeChan := closeChan w;
     collectorsDiscovered := collectorsDiscovered w;
     trace := trace w ++ acts |}.

Definition withMap (m : MembershipSet) (w : World) : World :=
  {| collectorMap := m; closeChan := closeChan w;
     collectorsDiscovered := collectorsDiscovered w; trace := trace w |}.

Definition withClosed (w : World) : World :=
  {| collectorMap := collectorMap w; closeChan := true;
     collectorsDiscovered := collectorsDiscovered w; trace := trace w |}.

(** [collectorsDiscovered.Set(float64(len(collectorMap)))] *)
Definition gauged (w : World) : World :=
  {| collectorMap := collectorMap w; closeChan := closeChan w;
     collectorsDiscovered := Z.of_nat (size (collectorMap w));
     trace := trace w |}.

Definition emit (a : Action) : M unit := fun w => (Ret (), record [a] w).

Definition modifyMap (f : MembershipSet -> MembershipSet) : M unit := fun w =>
  (Ret (), withMap (f (collectorMap w)) w).

Definition setGauge : M unit := fun w => (Ret (), gauged w).

Definition osExit {A} (code : Z) : M A := fun w => (Exit code, w).
Definition block {A} : M A := fun w => (Pending, w).

(** [defer d] around a body: [d] runs when the body returns, not when the
    process ends or stays blocked inside it. *)
Definition defer {A} (d : M unit) (body : M A) : M A :=
  a ← body; d;; mret a.

(** ** The script: what the environment answers *)

(** State of the event channel when a [select] is resolved. *)
Inductive ChanState : Type :=
| ChanEmpty
| ChanClosed
| ChanItem (event : watch.Event).

(** One resolution of the [select] in [runWatch]. *)
Record Round : Type := {
  closeCalled : bool;     (* another goroutine calls [Close] before it *)
  now : time.Time;        (* the clock when it is resolved *)
  cancelled : bool;       (* the caller's context has been cancelled *)
  chan : ChanState;       (* what the event channel offers *)
  rnd : nat               (* the runtime's draw among the ready cases *)
}.

(** One call of [k8sClient.CoreV1().Pods(ns).Watch]. *)
Record Session : Type := {
  start : time.Time;                       (* the clock at [WithTimeout] *)
  subscription : string + list Round       (* [inl err], or the stream *)
}.

Record Script : Type := {
  listResult : string + list v1.Pod;       (* [inl err], or [pods.Items] *)
  sessions : list Session
}.

(** Which case of the [select] fired. *)
Inductive Wake : Type :=
| WakeClose
| WakeDone
| WakeRecv (event : option watch.Event).   (* [None]: received with [ok = false] *)

Definition ctxDone (ctx : context.Context) (r : Round) : bool :=
  cancelled r || context.expired ctx (now r).

(** The cases that can proceed, in the order the source lists them. *)
Definition readyCases (closed : bool) (ctx : context.Context) (r : Round)
    : list Wake :=
  (if closed then [WakeClose] else []) ++
  (if ctxDone ctx r then [WakeDone] else []) ++
  match chan r with
  | ChanEmpty => []
  | ChanClosed => [WakeRecv None]
  | ChanItem e => [WakeRecv (Some e)]
  end.

(** Go's [select]: one of the cases that can proceed is chosen by a
    pseudo-random draw; with none, the goroutine stays blocked. *)
Definition select (closed : bool) (ctx : context.Context) (r : Round)
    : option Wake :=
  let ready := readyCases closed ctx r in
  ready !! (rnd r `mod` length ready)%nat.

(** ** The program *)

Definition watcherTimeout : time.Duration := 15 * time.Minute.

(** [func (k *Client) Close()]: closing a closed channel panics. *)
Definition Close : M unit := fun w =>
  if closeChan w then (Panic "close of closed channel", w)
  else (Ret (), withClosed w).

Section Watcher.
(** [ns] is read from the environment when the package is loaded. *)
Variable ns : string.
(** [labels.SelectorFromSet(labelMap).String()], from apimachinery. *)
Variable selectorString : gmap string string -> string.
(** The callback: it is handed the live map, so its effect on the map
    is a function of the map it finds. *)
Variable fn : MembershipSet -> MembershipSet.

(** [fn(collectorMap)] *)
Definition callFn : M unit := fun w =>
  (Ret (), withMap (fn (collectorMap w)) (record [Callback (collectorMap w)] w)).

(** The [select] of [runWatch], after the environment's turn. *)
Definition resolve (ctx : context.Context) (r : Round) : M Wake := fun w =>
  match select (closeChan w) ctx r with
  | Some wk => (Ret wk, w)
  | None => (Pending, w)
  end.

Definition await (ctx : context.Context) (r : Round) : M Wake :=
  (if closeCalled r then Close else mret ());;
  resolve ctx r.

(** What [runWatch] does with a received event whose object is a pod:
    the [switch] on the event type. *)
Definition applyEvent (ty : watch.EventType) (pod : v1.Pod) : M unit :=
  match ty with
  | watch.Added =>
      emit (LogInfo "Rashmi in collectorWatch runWatch case - watch.Added - end");;
      modifyMap (insert (v1.Name pod) (allocation.NewCollector (v1.Name pod)))
  | watch.Deleted =>
      modifyMap (delete (v1.Name pod))
  | _ => mret ()
  end.

(** The [for] loop of [runWatch]; [c] is the event channel together
    with the other inputs of each wait. *)
Fixpoint runWatchLoop (ctx : context.Context) (c : list Round) : M string :=
  setGauge;;
  match c with
  | [] => block
  | r :: c' =>
      wk ← await ctx r;
      match wk with
      | WakeClose => mret "kubernetes client closed"
      | WakeDone => mret ""
      | WakeRecv None =>
          emit (LogInfo "No event found. Restarting watch routine");;
          mret ""
      | WakeRecv (Some event) =>
          match watch.Object event with
          | watch.OtherObject _ =>
              emit (LogInfo "No pod found in event Object. Restarting watch routine");;
              mret ""
          | watch.PodObject pod =>
              applyEvent (watch.Type_ event) pod;;
              callFn;;
              runWatchLoop ctx c'
          end
      end
  end.

Definition runWatch (ctx : context.Context) (c : list Round) : M string :=
  emit (LogInfo "Rashmi in collectorWatch runWatch - begin");;
  runWatchLoop ctx c.

Definition restartWatch (ctx : context.Context) (opts : metav1.ListOptions)
    (s : Session) : M bool :=
  emit (LogInfo "Rashmi in collectorWatch restartWatch - begin");;
  emit (StartTimeout (start s) watcherTimeout);;
  let ctx' := context.WithTimeout ctx (start s) watcherTimeout in
  defer (emit (CancelTimeout ctx'))
    (emit (WatchPods ns ctx' opts);;
     match subscription s with
     | inl err =>
         emit (LogError err "unable to create collector pod watcher");;
         mret false
     | inr c =>
         emit (LogInfo "Successfully started a collector pod watcher");;
         msg ← runWatch ctx' c;
         if bool_decide (msg ≠ "") then
           emit (LogInfo ("Collector pod watch event stopped " +:+ msg));;
           mret false
         else
           emit (LogInfo "Rashmi in collectorWatch restartWatch - end");;
           mret true
     end).

(** The [for] loop at the end of [Watch]. *)
Fixpoint watchLoop (ctx : context.Context) (opts : metav1.ListOptions)
    (ss : list Session) : M (option string) :=
  match ss with
  | [] => block
  | s :: ss' =>
      again ← restartWatch ctx opts s;
      if negb again then mret None else watchLoop ctx opts ss'
  end.

(** The [for i := range pods.Items] loop of [Watch]. *)
Fixpoint bootstrap (items : list v1.Pod) : M unit :=
  match items with
  | [] => mret ()
  | pod :: items' =>
      (match v1.DeletionTimestamp pod with
       | None => modifyMap (insert (v1.Name pod)
                              (allocation.NewCollector (v1.Name pod)))
       | Some _ => mret ()
       end);;
      bootstrap items'
  end.

(** [func (k *Client) Watch]; the result is the returned [error],
    [None] for [nil]. *)
Definition Watch (ctx : context.Context) (labelMap : gmap string string)
    (sc : Script) : M (option string) :=
  emit (LogInfo "Rashmi in collectorWatch watch - begin");;
  modifyMap (fun _ => ∅);;
  let opts := {| metav1.LabelSelector := selectorString labelMap |} in
  emit (ListPods ns ctx opts);;
  items ← match listResult sc with
          | inl err => emit (LogError err "Pod failure");; osExit 1
          | inr items => mret items
          end;
  bootstrap items;;
  callFn;;
  watchLoop ctx opts (sessions sc).

End Watcher.

(** ** Derived notions used to state the results *)

(** The map that the [range] loop over the listing leaves. *)
Definition seed (items : list v1.Pod) (m : MembershipSet) : MembershipSet :=
  foldl (fun m pod =>
           match v1.DeletionTimestamp pod with
           | None => <[v1.Name pod := allocation.NewCollector (v1.Name pod)]> m
           | Some _ => m
           end) m items.

(** The trace of [w'] continues the trace of [w]. *)
Definition extends (w w' : World) : Prop :=
  exists rest, trace w' = trace w ++ rest.

(** The context of the session that [restartWatch] starts at time [t]. *)
Definition sessionCtx (ctx : context.Context) (t : time.Time) : context.Context :=
  context.WithTimeout ctx t watcherTimeout.

(** What [restartWatch] has done when it has made the [Watch] call. *)
Definition opening (ns : string) (ctx : context.Context)
    (opts : metav1.ListOptions) (s : Session) : list Action :=
  [LogInfo "Rashmi in collectorWatch restartWatch - begin";
   StartTimeout (start s) watcherTimeout;
   WatchPods ns (sessionCtx ctx (start s)) opts].

(** The world in which [restartWatch] calls [runWatch]. *)
Definition entered (ns : string) (ctx : context.Context)
    (opts : metav1.ListOptions) (s : Session) (w : World) : World :=
  record (opening ns ctx opts s ++
          [LogInfo "Successfully started a collector pod watcher"]) w.

(** The event processor of a session, started on the stream [c0] in the
    world [w0], comes to the head of its loop in the world [w] with the
    stream [c] left. *)
Definition comesTo (fn : MembershipSet -> MembershipSet)
    (ctx' : context.Context) (c0 : list Round) (w0 : World)
    (c : list Round) (w : World) : Prop :=
  runWatch fn ctx' c0 w0 = runWatchLoop fn ctx' c w.

(** The options of the [List] and [Watch] calls. *)
Definition listOpts (selectorString : gmap string string -> string)
    (labelMap : gmap string string) : metav1.ListOptions :=
  {| metav1.LabelSelector := selectorString labelMap |}.

(** What [Watch] has done when it has made the [List] call. *)
Definition listing (ns : string) (selectorString : gmap string string -> string)
    (ctx : context.Context) (labelMap : gmap string string) : list Action :=
  [LogInfo "Rashmi in collectorWatch watch - begin";
   ListPods ns ctx (listOpts selectorString labelMap)].

Definition isWatchPods (a : Action) : bool :=
  match a with WatchPods _ _ _ => true | _ => false end.

(** The part of a trace that precedes the first [Watch] call. *)
Fixpoint beforeFirstWatch (t : list Action) : list Action :=
  match t with
  | [] => []
  | a :: t' => if isWatchPods a then [] else a :: beforeFirstWatch t'
  end.

(** The sets handed to the callback, in order. *)
Definition callbacks (t : list Action) : list MembershipSet :=
  omap (fun a => match a with Callback m => Some m | _ => None end) t.

(** ** Concrete data for the worked cases *)

Definition fresh : World :=
  {| collectorMap := ∅; closeChan := false; collectorsDiscovered := 0;
     trace := [] |}.

Definition alive (n : string) : v1.Pod :=
  {| v1.Name := n; v1.DeletionTimestamp := None |}.

Definition terminating (n : string) : v1.Pod :=
  {| v1.Name := n; v1.DeletionTimestamp := Some 42 |}.

Definition podEvent (ty : watch.EventType) (n : string) : watch.Event :=
  {| watch.Type_ := ty; watch.Object := watch.PodObject (alive n) |}.

(** A wait at time [t] with nobody calling [Close] and the caller's
    context live, and the first ready case taken. *)
Definition quiet (t : time.Time) (ch : ChanState) : Round :=
  {| closeCalled := false; now := t; cancelled := false; chan := ch; rnd := 0 |}.

Definition someOpts : metav1.ListOptions :=
  {| metav1.LabelSelector := "app=collector" |}.

(** A world whose membership set holds one collector. *)
Definition seeded : World :=
  withMap {["p1" := allocation.NewCollector "p1"]} fresh.

(** A session that delivers one Added event and is then cut by the
    server. *)
Definition hangup : Session :=
  {| start := 0;
     subscription := inr [quiet 5 (ChanItem (podEvent watch.Added "p3"));
                          quiet 9 ChanClosed] |}.

(** The state of a session started in [seeded] once its processor has
    handled an Added event for "p3" and is back at the head of its loop. *)
Definition afterAdded : World :=
  snd (runWatch id (sessionCtx context.Background 0)
         [quiet 5 (ChanItem (podEvent watch.Added "p3"))]
         (entered "otel" context.Background someOpts hangup seeded)).

(** A world in which [Close] has already been called. *)
Definition closedWorld : World := withClosed seeded.

(** A wait that finds the close channel closed and the event channel
    closed too, where the runtime's draw falls on the receive case. *)
Definition closedRace : Round :=
  {| closeCalled := false; now := 5; cancelled := false; chan := ChanClosed;
     rnd := 1 |}.

(** A wait that finds the close channel closed and an Added event
    pending, where the runtime's draw falls on the receive case. *)
Definition eventRace : Round :=
  {| closeCalled := false; now := 5; cancelled := false;
     chan := ChanItem (podEvent watch.Added "p3"); rnd := 1 |}.

Definition racing : Session :=
  {| start := 0; subscription := inr [closedRace] |}.

(** A wait during which [Close] is called, with nothing else ready. *)
Definition closeWhileIdle : Round :=
  {| closeCalled := true; now := 9; cancelled := false; chan := ChanEmpty;
     rnd := 7 |}.

(** A session in which, after one Added event, [Close] is called while
    the processor waits. *)
Definition closing : Session :=
  {| start := 0;
     subscription := inr [quiet 5 (ChanItem (podEvent watch.Added "p3"));
                          closeWhileIdle] |}.


(** ** Notions for the further properties *)

(** The set that the [switch] of [runWatch] leaves for an event of type
    [ty] on [pod]. *)
Definition updated (ty : watch.EventType) (pod : v1.Pod) (m : MembershipSet)
    : MembershipSet :=
  match ty with
  | watch.Added => <[v1.Name pod := allocation.NewCollector (v1.Name pod)]> m
  | watch.Deleted => delete (v1.Name pod) m
  | _ => m
  end.




(** Every entry of the set holds, under a name, the collector of that name. *)
Definition keyedByName (m : MembershipSet) : Prop :=
  forall k c, m !! k = Some c -> allocation.Name c = k.

(** The state keeps to names as keys: the set it holds is keyed by name,
    and so is every set that the callback has been handed. *)
Definition wellKeyed (w : World) : Prop :=
  keyedByName (collectorMap w) /\ Forall keyedByName (callbacks (trace w)).

(** A wait at time [t] that finds the event channel offering an event
    that carries no pod. *)
Definition strayStatus (t : time.Time) : Round :=
  quiet t (ChanItem {| watch.Type_ := watch.Error;
                       watch.Object := watch.OtherObject "Status" |}).

(** A wait at time [t] that finds the caller's context cancelled and
    nothing else ready. *)
Definition callerCancelled (t : time.Time) : Round :=
  {| closeCalled := false; now := t; cancelled := true; chan := ChanEmpty;
     rnd := 0 |}.

(** * Proofs *)


(** ** Basic facts about the monad and the wait *)

Ltac run := unfold mbind, M_bind, mret, M_ret, emit, modifyMap, setGauge,
  osExit, block, defer, callFn; simpl.

Lemma record_app (a b : list Action) (w : World) :
  record b (record a w) = record (a ++ b) w.
Proof. unfold record; simpl. by rewrite <- app_assoc. Qed.

Lemma record_nil (w : World) : record [] w = w.
Proof. destruct w; unfold record; simpl. by rewrite app_nil_r. Qed.

(** The environment's turn and the [select] leave everything but the
    close channel alone. *)
Lemma await_inv (ctx : context.Context) (r : Round) (w w1 : World) (wk : Wake) :
  await ctx r w = (Ret wk, w1) ->
  (closeCalled r = false /\ w1 = w \/
   closeCalled r = true /\ closeChan w = false /\ w1 = withClosed w) /\
  select (closeChan w1) ctx r = Some wk.
Proof.
  unfold await, resolve, Close. run.
  destruct (closeCalled r); simpl.
  - destruct (closeChan w) eqn:Hc; simpl; [discriminate |].
    destruct (select true ctx r) eqn:Hs; intros [= <- <-]; simpl.
    split; [right | ]; auto.
  - destruct (select (closeChan w) ctx r) eqn:Hs; intros [= <- <-].
    split; [left | ]; auto.
Qed.

Lemma await_gauged (ctx : context.Context) (r : Round) (w w1 : World) (wk : Wake) :
  await ctx r w = (Ret wk, w1) ->
  await ctx r (gauged w) = (Ret wk, gauged w1).
Proof.
  unfold await, resolve, Close. run.
  destruct (closeCalled r); simpl.
  - destruct (closeChan w); simpl; [discriminate |].
    destruct (select true ctx r); intros [= <- <-]; reflexivity.
  - destruct (select (closeChan w) ctx r); intros [= <- <-]; reflexivity.
Qed.

Lemma await_map (ctx : context.Context) (r : Round) (w w1 : World) (wk : Wake) :
  await ctx r w = (Ret wk, w1) ->
  collectorMap w1 = collectorMap w /\ trace w1 = trace w /\
  collectorsDiscovered w1 = collectorsDiscovered w.
Proof.
  intros H. apply await_inv in H as [[[_ ->] | (_ & _ & ->)] _]; auto.
Qed.

(** With the close channel closed and nothing else ready, the [select]
    has one case to take. *)
Lemma select_only_close (ctx : context.Context) (r : Round) :
  ctxDone ctx r = false -> chan r = ChanEmpty ->
  select true ctx r = Some WakeClose.
Proof.
  intros Hd Hc. unfold select, readyCases. rewrite Hd, Hc.
  cbn [app length]. by rewrite Nat.mod_1_r.
Qed.

(** With the close channel open, the session context done and the event
    channel empty, the [select] has one case to take. *)
Lemma select_only_done (ctx : context.Context) (r : Round) :
  ctxDone ctx r = true -> chan r = ChanEmpty ->
  select false ctx r = Some WakeDone.
Proof.
  intros Hd Hc. unfold select, readyCases. rewrite Hd, Hc.
  cbn [app length]. by rewrite Nat.mod_1_r.
Qed.

(** What is ready when no one has closed the close channel. *)
Lemma select_open_closed_chan (ctx : context.Context) (r : Round) (wk : Wake) :
  chan r = ChanClosed -> select false ctx r = Some wk ->
  wk = WakeDone \/ wk = WakeRecv None.
Proof.
  intros Hc. unfold select, readyCases. rewrite Hc.
  destruct (ctxDone ctx r); cbn [app length].
  - destruct (rnd r `mod` 2)%nat as [|[|n]] eqn:E; simpl;
      intros [= <-]; auto.
  - rewrite Nat.mod_1_r. simpl. intros [= <-]; auto.
Qed.

Lemma select_open_closed_chan_some (ctx : context.Context) (r : Round) :
  chan r = ChanClosed -> is_Some (select false ctx r).
Proof.
  intros Hc. unfold select, readyCases. rewrite Hc. simpl.
  destruct (ctxDone ctx r); apply lookup_lt_is_Some;
    apply Nat.mod_upper_bound; simpl; lia.
Qed.

(** ** One iteration of the event loop *)

Section Loop.
Variable fn : MembershipSet -> MembershipSet.
Variable ctx : context.Context.

(** The loop body as the source has it, with the gauge already set. *)
Lemma runWatchLoop_unfold (r : Round) (c : list Round) (w : World) :
  runWatchLoop fn ctx (r :: c) w =
  match await ctx r (gauged w) with
  | (Ret WakeClose, w1) => (Ret "kubernetes client closed", w1)
  | (Ret WakeDone, w1) => (Ret "", w1)
  | (Ret (WakeRecv None), w1) =>
      (Ret "", record [LogInfo "No event found. Restarting watch routine"] w1)
  | (Ret (WakeRecv (Some event)), w1) =>
      match watch.Object event with
      | watch.OtherObject _ =>
          (Ret "", record [LogInfo "No pod found in event Object. Restarting watch routine"] w1)
      | watch.PodObject pod =>
          (applyEvent (watch.Type_ event) pod;; callFn fn;;
           runWatchLoop fn ctx c) w1
      end
  | (Exit code, w1) => (Exit code, w1)
  | (Panic msg, w1) => (Panic msg, w1)
  | (Pending, w1) => (Pending, w1)
  end.
Proof.
  simpl. run. destruct (await ctx r (gauged w)) as [[[| |[e|]]| | |] w1];
    try reflexivity.
  destruct (watch.Object e); reflexivity.
Qed.

Lemma runWatchLoop_cons (r : Round) (c : list Round) (w w1 : World) (wk : Wake) :
  await ctx r w = (Ret wk, w1) ->
  runWatchLoop fn ctx (r :: c) w =
  match wk with
  | WakeClose => (Ret "kubernetes client closed", gauged w1)
  | WakeDone => (Ret "", gauged w1)
  | WakeRecv None =>
      (Ret "", record [LogInfo "No event found. Restarting watch routine"]
                 (gauged w1))
  | WakeRecv (Some event) =>
      match watch.Object event with
      | watch.OtherObject _ =>
          (Ret "", record [LogInfo "No pod found in event Object. Restarting watch routine"]
                     (gauged w1))
      | watch.PodObject pod =>
          (applyEvent (watch.Type_ event) pod;; callFn fn;;
           runWatchLoop fn ctx c) (gauged w1)
      end
  end.
Proof.
  intros H. apply await_gauged in H.
  rewrite runWatchLoop_unfold, H. reflexivity.
Qed.

(** The iteration for a received event that carries a pod, by the
    effect of the [switch] on the world. *)
Lemma runWatchLoop_pod (r : Round) (c : list Round) (w w1 w2 : World)
    (event : watch.Event) (pod : v1.Pod) :
  await ctx r w = (Ret (WakeRecv (Some event)), w1) ->
  watch.Object event = watch.PodObject pod ->
  applyEvent (watch.Type_ event) pod (gauged w1) = (Ret (), w2) ->
  runWatchLoop fn ctx (r :: c) w =
  runWatchLoop fn ctx c
    (withMap (fn (collectorMap w2)) (record [Callback (collectorMap w2)] w2)).
Proof.
  intros H Ho Ha. rewrite (runWatchLoop_cons _ _ _ _ _ H), Ho.
  unfold mbind at 1. unfold M_bind at 1. rewrite Ha. reflexivity.
Qed.

End Loop.

(** ** The bootstrap listing *)

Lemma withMap_same (w : World) : withMap (collectorMap w) w = w.
Proof. by destruct w. Qed.

Lemma withClosed_same (w : World) : closeChan w = true -> withClosed w = w.
Proof. destruct w; simpl. by intros ->. Qed.

Lemma bootstrap_run (items : list v1.Pod) (w : World) :
  bootstrap items w = (Ret (), withMap (seed items (collectorMap w)) w).
Proof.
  revert w. induction items as [|pod items IH]; intros w; simpl.
  - by rewrite withMap_same.
  - run. destruct (v1.DeletionTimestamp pod); simpl; rewrite IH; reflexivity.
Qed.

Lemma seed_keeps (items : list v1.Pod) (m : MembershipSet) (n : string) :
  m !! n = Some (allocation.NewCollector n) ->
  seed items m !! n = Some (allocation.NewCollector n).
Proof.
  revert m. induction items as [|pod items IH]; intros m Hm; simpl; [done |].
  apply IH. destruct (v1.DeletionTimestamp pod); [done |].
  destruct (decide (v1.Name pod = n)) as [-> | Hne].
  - by rewrite lookup_insert_eq.
  - by rewrite lookup_insert_ne.
Qed.

Lemma seed_alive (items : list v1.Pod) (m : MembershipSet) (pod : v1.Pod) :
  pod ∈ items -> v1.DeletionTimestamp pod = None ->
  seed items m !! v1.Name pod = Some (allocation.NewCollector (v1.Name pod)).
Proof.
  revert m. induction items as [|p items IH]; intros m Hin Hd.
  - by apply elem_of_nil in Hin.
  - apply elem_of_cons in Hin as [<- | Hin]; simpl.
    + rewrite Hd. apply seed_keeps. by rewrite lookup_insert_eq.
    + by apply IH.
Qed.

Lemma seed_other (items : list v1.Pod) (m : MembershipSet) (n : string) :
  (forall pod, pod ∈ items -> v1.Name pod = n ->
               v1.DeletionTimestamp pod <> None) ->
  seed items m !! n = m !! n.
Proof.
  revert m. induction items as [|p items IH]; intros m H; simpl; [done |].
  rewrite IH.
  - destruct (v1.DeletionTimestamp p) eqn:Hd; [done |].
    destruct (decide (v1.Name p = n)) as [Hn | Hn].
    + exfalso. apply (H p); [apply elem_of_cons; by left | done | done].
    + by rewrite lookup_insert_ne.
  - intros pod Hin. apply H. apply elem_of_cons. by right.
Qed.


(** ** Traces only grow *)

Lemma extends_refl (w : World) : extends w w.
Proof. exists []. by rewrite app_nil_r. Qed.

Lemma extends_trans (w1 w2 w3 : World) :
  extends w1 w2 -> extends w2 w3 -> extends w1 w3.
Proof.
  intros [a Ha] [b Hb]. exists (a ++ b). by rewrite Hb, Ha, app_assoc.
Qed.

Lemma extends_record (acts : list Action) (w : World) : extends w (record acts w).
Proof. by exists acts. Qed.

Lemma extends_same_trace (w w' : World) : trace w' = trace w -> extends w w'.
Proof. intros H. exists []. by rewrite app_nil_r. Qed.

Lemma await_trace (ctx : context.Context) (r : Round) (w : World) :
  trace (snd (await ctx r w)) = trace w.
Proof.
  unfold await, resolve, Close. run.
  destruct (closeCalled r); simpl.
  - destruct (closeChan w); simpl; [done |].
    by destruct (select true ctx r).
  - by destruct (select (closeChan w) ctx r).
Qed.

Lemma applyEvent_run (ty : watch.EventType) (pod : v1.Pod) (w : World) :
  exists w', applyEvent ty pod w = (Ret (), w') /\ extends w w'.
Proof.
  destruct ty; simpl; run; eexists; (split; [reflexivity |]);
    try (apply extends_same_trace; reflexivity).
  by exists [LogInfo "Rashmi in collectorWatch runWatch case - watch.Added - end"].
Qed.

Lemma runWatchLoop_extends (fn : MembershipSet -> MembershipSet)
    (ctx : context.Context) (c : list Round) (w : World) :
  extends w (snd (runWatchLoop fn ctx c w)).
Proof.
  revert w. induction c as [|r c IH]; intros w.
  - simpl. run. by apply extends_same_trace.
  - rewrite runWatchLoop_unfold.
    pose proof (await_trace ctx r (gauged w)) as Ht.
    destruct (await ctx r (gauged w)) as [[[| |[e|]]| | |] w1]; simpl in *;
      try (by apply extends_same_trace).
    + destruct (watch.Object e) as [pod | kind].
      * destruct (applyEvent_run (watch.Type_ e) pod w1) as (w2 & Ha & He).
        unfold mbind at 1. unfold M_bind at 1. rewrite Ha.
        unfold mbind, M_bind, callFn. simpl.
        eapply extends_trans; [| apply IH].
        eapply extends_trans; [by apply extends_same_trace |].
        eapply extends_trans; [apply He |].
        by exists [Callback (collectorMap w2)].
      * eapply extends_trans; [by apply extends_same_trace |].
        apply extends_record.
    + eapply extends_trans; [by apply extends_same_trace |].
      apply extends_record.
Qed.

(** ** A session and the session loop *)

Section Sessions.
Variable ns : string.
Variable fn : MembershipSet -> MembershipSet.
Variable ctx : context.Context.
Variable opts : metav1.ListOptions.

Lemma restartWatch_failed (s : Session) (err : string) (w : World) :
  subscription s = inl err ->
  restartWatch ns fn ctx opts s w =
  (Ret false,
   record (opening ns ctx opts s ++
           [LogError err "unable to create collector pod watcher";
            CancelTimeout (sessionCtx ctx (start s))]) w).
Proof.
  intros Hs. unfold restartWatch. rewrite Hs.
  cbv [defer mbind M_bind mret M_ret emit record opening sessionCtx]. simpl.
  by rewrite <- !app_assoc.
Qed.

Lemma restartWatch_opened (s : Session) (c : list Round) (w : World) :
  subscription s = inr c ->
  restartWatch ns fn ctx opts s w =
  match runWatch fn (sessionCtx ctx (start s)) c (entered ns ctx opts s w) with
  | (Ret msg, w') =>
      if bool_decide (msg ≠ "") then
        (Ret false,
         record [LogInfo ("Collector pod watch event stopped " +:+ msg);
                 CancelTimeout (sessionCtx ctx (start s))] w')
      else
        (Ret true,
         record [LogInfo "Rashmi in collectorWatch restartWatch - end";
                 CancelTimeout (sessionCtx ctx (start s))] w')
  | (Exit code, w') => (Exit code, w')
  | (Panic msg, w') => (Panic msg, w')
  | (Pending, w') => (Pending, w')
  end.
Proof.
  intros Hs. unfold restartWatch. rewrite Hs.
  unfold defer, mbind, M_bind, mret, M_ret, emit. cbn [fst snd].
  replace (record [LogInfo "Successfully started a collector pod watcher"] _)
    with (entered ns ctx opts s w)
    by (unfold entered, opening, record; simpl; by rewrite <- !app_assoc).
  change (context.WithTimeout ctx (start s) watcherTimeout)
    with (sessionCtx ctx (start s)).
  destruct (runWatch fn (sessionCtx ctx (start s)) c (entered ns ctx opts s w)) as [[msg| | |] w'];
    try reflexivity.
  destruct (bool_decide (msg ≠ "")); simpl; by rewrite record_app.
Qed.

Lemma runWatch_extends (c : list Round) (c' : context.Context) (w : World) :
  extends w (snd (runWatch fn c' c w)).
Proof.
  unfold runWatch. run. eapply extends_trans; [| apply runWatchLoop_extends].
  apply extends_record.
Qed.

(** Every run of [restartWatch] starts by making the [Watch] call. *)
Lemma restartWatch_opens (s : Session) (w : World) :
  extends (record (opening ns ctx opts s) w) (snd (restartWatch ns fn ctx opts s w)).
Proof.
  destruct (subscription s) as [err | c] eqn:Hs.
  - rewrite (restartWatch_failed _ _ _ Hs). cbn [snd].
    rewrite <- record_app. apply extends_record.
  - rewrite (restartWatch_opened _ _ _ Hs).
    pose proof (runWatch_extends c (sessionCtx ctx (start s)) (entered ns ctx opts s w)) as He.
    assert (extends (record (opening ns ctx opts s) w) (entered ns ctx opts s w)) as H0
      by (unfold entered; rewrite <- record_app; apply extends_record).
    destruct (runWatch fn (sessionCtx ctx (start s)) c (entered ns ctx opts s w))
      as [[msg| | |] w']; cbn [snd] in *;
      try (eapply extends_trans; [apply H0 | apply He]).
    destruct (bool_decide (msg ≠ "")); cbn [snd];
      (eapply extends_trans; [apply H0 |]);
      (eapply extends_trans; [apply He |]); apply extends_record.
Qed.

Lemma watchLoop_cons (s : Session) (ss : list Session) (w : World) :
  watchLoop ns fn ctx opts (s :: ss) w =
  match restartWatch ns fn ctx opts s w with
  | (Ret true, w') => watchLoop ns fn ctx opts ss w'
  | (Ret false, w') => (Ret None, w')
  | (Exit code, w') => (Exit code, w')
  | (Panic msg, w') => (Panic msg, w')
  | (Pending, w') => (Pending, w')
  end.
Proof.
  simpl. unfold mbind, M_bind.
  destruct (restartWatch ns fn ctx opts s w) as [[[|]| | |] w']; reflexivity.
Qed.

Lemma watchLoop_extends (ss : list Session) (w : World) :
  extends w (snd (watchLoop ns fn ctx opts ss w)).
Proof.
  revert w. induction ss as [|s ss IH]; intros w.
  - apply extends_refl.
  - rewrite watchLoop_cons.
    pose proof (restartWatch_opens s w) as He.
    assert (extends w (snd (restartWatch ns fn ctx opts s w))) as H0
      by (eapply extends_trans; [apply extends_record | apply He]).
    destruct (restartWatch ns fn ctx opts s w) as [[[|]| | |] w'];
      simpl in *; try apply H0.
    eapply extends_trans; [apply H0 | apply IH].
Qed.

(** When the loop goes round, the first thing in the trace is the
    opening of the next session. *)
Lemma watchLoop_opens (s : Session) (ss : list Session) (w : World) :
  extends (record (opening ns ctx opts s) w) (snd (watchLoop ns fn ctx opts (s :: ss) w)).
Proof.
  rewrite watchLoop_cons.
  pose proof (restartWatch_opens s w) as He.
  destruct (restartWatch ns fn ctx opts s w) as [[[|]| | |] w'];
    simpl in *; try apply He.
  eapply extends_trans; [apply He | apply watchLoop_extends].
Qed.

(** The only value that the session loop returns is [nil]. *)
Lemma watchLoop_returns_nil (ss : list Session) (w w' : World)
    (e : option string) :
  watchLoop ns fn ctx opts ss w = (Ret e, w') -> e = None.
Proof.
  revert w. induction ss as [|s ss IH]; intros w.
  - simpl. unfold block. discriminate.
  - rewrite watchLoop_cons.
    destruct (restartWatch ns fn ctx opts s w) as [[[|]| | |] w1];
      try discriminate.
    + apply IH.
    + by intros [= <- _].
Qed.

End Sessions.

(** ** The whole of [Watch] *)

Section Whole.
Variable ns : string.
Variable selectorString : gmap string string -> string.
Variable fn : MembershipSet -> MembershipSet.
Variable ctx : context.Context.
Variable labelMap : gmap string string.

Lemma Watch_listed (sc : Script) (items : list v1.Pod) (w : World) :
  listResult sc = inr items ->
  Watch ns selectorString fn ctx labelMap sc w =
  watchLoop ns fn ctx (listOpts selectorString labelMap) (sessions sc)
    (withMap (fn (seed items ∅))
       (record (listing ns selectorString ctx labelMap ++
                [Callback (seed items ∅)]) w)).
Proof.
  intros Hl. unfold Watch. rewrite Hl.
  unfold mbind, M_bind, mret, M_ret, emit, modifyMap. cbn [fst snd].
  rewrite bootstrap_run. unfold callFn. cbn [fst snd].
  f_equal. unfold withMap, record, listing, listOpts; simpl.
  by rewrite <- !app_assoc.
Qed.

Lemma Watch_list_failed (sc : Script) (err : string) (w : World) :
  listResult sc = inl err ->
  Watch ns selectorString fn ctx labelMap sc w =
  (Exit 1,
   withMap ∅ (record (listing ns selectorString ctx labelMap ++
                      [LogError err "Pod failure"]) w)).
Proof.
  intros Hl. unfold Watch. rewrite Hl.
  cbv [mbind M_bind mret M_ret emit modifyMap osExit withMap record listing
       listOpts]. simpl.
  by rewrite <- !app_assoc.
Qed.

(** The only value that [Watch] returns is [nil]. *)
Lemma Watch_returns_nil (sc : Script) (w w' : World) (e : option string) :
  Watch ns selectorString fn ctx labelMap sc w = (Ret e, w') -> e = None.
Proof.
  destruct (listResult sc) as [err | items] eqn:Hl.
  - rewrite (Watch_list_failed _ _ _ Hl). discriminate.
  - rewrite (Watch_listed _ _ _ Hl). apply watchLoop_returns_nil.
Qed.

End Whole.

(** ** How a session ends *)

Section Ending.
Variable ns : string.
Variable fn : MembershipSet -> MembershipSet.
Variable ctx : context.Context.
Variable opts : metav1.ListOptions.

(** An empty reason from the event processor: the session reports that
    another one is wanted, and the session loop goes round. *)
Lemma session_renewed (s : Session) (ss : list Session) (c0 : list Round)
    (w0 w' : World) :
  subscription s = inr c0 ->
  runWatch fn (sessionCtx ctx (start s)) c0 (entered ns ctx opts s w0)
    = (Ret "", w') ->
  let w'' := record [LogInfo "Rashmi in collectorWatch restartWatch - end";
                     CancelTimeout (sessionCtx ctx (start s))] w' in
  restartWatch ns fn ctx opts s w0 = (Ret true, w'') /\
  watchLoop ns fn ctx opts (s :: ss) w0 = watchLoop ns fn ctx opts ss w''.
Proof.
  intros Hs Hr w''.
  assert (restartWatch ns fn ctx opts s w0 = (Ret true, w'')) as H
    by (rewrite (restartWatch_opened ns fn ctx opts s c0 w0 Hs), Hr; reflexivity).
  split; [exact H |]. by rewrite watchLoop_cons, H.
Qed.

(** A reason from the event processor: the session reports that no other
    one is wanted, and the session loop returns [nil]. *)
Lemma session_stopped (s : Session) (ss : list Session) (c0 : list Round)
    (w0 w' : World) (msg : string) :
  subscription s = inr c0 ->
  runWatch fn (sessionCtx ctx (start s)) c0 (entered ns ctx opts s w0)
    = (Ret msg, w') ->
  msg <> "" ->
  let w'' := record [LogInfo ("Collector pod watch event stopped " +:+ msg);
                     CancelTimeout (sessionCtx ctx (start s))] w' in
  restartWatch ns fn ctx opts s w0 = (Ret false, w'') /\
  watchLoop ns fn ctx opts (s :: ss) w0 = (Ret None, w'').
Proof.
  intros Hs Hr Hm w''.
  assert (restartWatch ns fn ctx opts s w0 = (Ret false, w'')) as H.
  { rewrite (restartWatch_opened ns fn ctx opts s c0 w0 Hs), Hr.
    by rewrite bool_decide_eq_true_2. }
  split; [exact H |]. by rewrite watchLoop_cons, H.
Qed.

End Ending.

(** * The specified behaviour, claim by claim *)





(** C3. When the bootstrap listing succeeds, [Watch] calls the callback
    with the initial membership set right after the listing, and nothing
    else is handed to the callback before the first watch session is
    opened: one call, also when the initial set is empty. *)
Theorem initial_callback_once_before_sessions
    (ns : string) (selectorString : gmap string string -> string)
    (fn : MembershipSet -> MembershipSet) (ctx : context.Context)
    (labelMap : gmap string string)
    (items : list v1.Pod) (ss : list Session) (w : World) :
  exists rest,
    trace (snd (Watch ns selectorString fn ctx labelMap
                  {| listResult := inr items; sessions := ss |} w)) =
    trace w ++
      [LogInfo "Rashmi in collectorWatch watch - begin";
       ListPods ns ctx (listOpts selectorString labelMap);
       Callback (seed items ∅)] ++ rest /\
    callbacks (beforeFirstWatch rest) = [] /\
    callbacks (beforeFirstWatch
                 ([LogInfo "Rashmi in collectorWatch watch - begin";
                   ListPods ns ctx (listOpts selectorString labelMap);
                   Callback (seed items ∅)] ++ rest)) = [seed items ∅] /\
    seed [] ∅ = (∅ : MembershipSet).
Proof.
  rewrite (Watch_listed ns selectorString fn ctx labelMap
             {| listResult := inr items; sessions := ss |} items w eq_refl).
  cbn [sessions].
  set (w' := withMap _ _).
  assert (trace w' = trace w ++
            [LogInfo "Rashmi in collectorWatch watch - begin";
             ListPods ns ctx (listOpts selectorString labelMap);
             Callback (seed items ∅)]) as Hw' by reflexivity.
  assert (exists rest,
            trace (snd (watchLoop ns fn ctx (listOpts selectorString labelMap) ss w'))
            = trace w' ++ rest /\ callbacks (beforeFirstWatch rest) = [])
    as (rest & Hr & Hc).
  { destruct ss as [|s ss].
    - exists []. split; [by rewrite app_nil_r | reflexivity].
    - destruct (watchLoop_opens ns fn ctx (listOpts selectorString labelMap)
                  s ss w') as [rest Hr].
      exists (opening ns ctx (listOpts selectorString labelMap) s ++ rest).
      split; [| reflexivity].
      rewrite Hr. simpl. by rewrite <- !app_assoc. }
  exists rest. rewrite Hr, Hw', <- app_assoc.
  split; [reflexivity |]. split; [exact Hc |]. split; [| reflexivity].
  change (callbacks (beforeFirstWatch (_ ++ rest)))
    with (seed items ∅ :: callbacks (beforeFirstWatch rest)).
  by rewrite Hc.
Qed.

(** C4, as stated, fails: with [Close] already called, the next wake-up
    of the event processor can be taken on another ready case.  Taken on
    the closed event channel, the processor returns the empty reason and
    the session asks for another one; taken on a pending event, the
    processor handles the event, calls the callback and goes back to
    waiting. *)
Lemma close_signalled_next_wakeup_counterexample :
  closeChan closedWorld = true /\
  await (sessionCtx context.Background 0) closedRace closedWorld
    = (Ret (WakeRecv None), closedWorld) /\
  fst (runWatchLoop id (sessionCtx context.Background 0) [closedRace] closedWorld)
    = Ret "" /\
  fst (restartWatch "otel" id context.Background someOpts racing closedWorld)
    = Ret true /\
  await (sessionCtx context.Background 0) eventRace closedWorld
    = (Ret (WakeRecv (Some (podEvent watch.Added "p3"))), closedWorld) /\
  runWatchLoop id (sessionCtx context.Background 0) [eventRace] closedWorld
    = (Pending,
       gauged (withMap {["p3" := allocation.NewCollector "p3";
                         "p1" := allocation.NewCollector "p1"]}
                 (record [LogInfo "Rashmi in collectorWatch runWatch case - watch.Added - end";
                          Callback {["p3" := allocation.NewCollector "p3";
                                     "p1" := allocation.NewCollector "p1"]}]
                    (gauged closedWorld)))).
Proof.
  repeat split; vm_compute; reflexivity.
Qed.

(** C4, amended. If [Close] has been signalled (before the wait, or
    during it) and the next wake-up of the event processor is taken on the
    close signal, as it is whenever nothing else is ready (the session
    context not done, the event channel empty), then the processor returns
    the reason "kubernetes client closed", the session reports that no
    other one is wanted, and the session loop returns [nil], whatever
    sessions could have followed. *)
Theorem close_wakeup_ends_watch
    (ns : string) (fn : MembershipSet -> MembershipSet)
    (ctx : context.Context) (opts : metav1.ListOptions)
    (s : Session) (c0 : list Round) (w0 : World)
    (r : Round) (c : list Round) (w : World) :
  subscription s = inr c0 ->
  comesTo fn (sessionCtx ctx (start s)) c0 (entered ns ctx opts s w0) (r :: c) w ->
  closeChan w = negb (closeCalled r) ->
  (select true (sessionCtx ctx (start s)) r = Some WakeClose \/
   ctxDone (sessionCtx ctx (start s)) r = false /\ chan r = ChanEmpty) ->
  runWatchLoop fn (sessionCtx ctx (start s)) (r :: c) w
    = (Ret "kubernetes client closed", gauged (withClosed w)) /\
  let w'' := record [LogInfo "Collector pod watch event stopped kubernetes client closed";
                     CancelTimeout (sessionCtx ctx (start s))]
               (gauged (withClosed w)) in
  restartWatch ns fn ctx opts s w0 = (Ret false, w'') /\
  forall ss, watchLoop ns fn ctx opts (s :: ss) w0 = (Ret None, w'').
Proof.
  intros Hs Hcome Hsig Hsel. set (ctx' := sessionCtx ctx (start s)) in *.
  assert (select true ctx' r = Some WakeClose) as Hpick
    by (destruct Hsel as [H | [Hd Hch]]; [exact H | by apply select_only_close]).
  assert (await ctx' r w = (Ret WakeClose, withClosed w)) as Ha.
  { unfold await, resolve, Close. unfold mbind, M_bind, mret, M_ret.
    destruct (closeCalled r); simpl in Hsig; rewrite Hsig; simpl.
    - by rewrite Hpick.
    - rewrite Hpick. by rewrite withClosed_same. }
  pose proof (runWatchLoop_cons fn ctx' r c w _ _ Ha) as Hrun.
  cbn iota in Hrun. unfold comesTo in Hcome. rewrite Hrun in Hcome.
  split; [exact Hrun |]. intros w''. split.
  - exact (proj1 (session_stopped ns fn ctx opts s [] c0 w0 _
                    "kubernetes client closed" Hs Hcome ltac:(discriminate))).
  - intros ss.
    exact (proj2 (session_stopped ns fn ctx opts s ss c0 w0 _
                    "kubernetes client closed" Hs Hcome ltac:(discriminate))).
Qed.

Lemma close_wakeup_ends_watch_witness :
  runWatchLoop id (sessionCtx context.Background (start closing))
    [closeWhileIdle] afterAdded
    = (Ret "kubernetes client closed", gauged (withClosed afterAdded)) /\
  let w'' := record [LogInfo "Collector pod watch event stopped kubernetes client closed";
                     CancelTimeout (sessionCtx context.Background (start closing))]
               (gauged (withClosed afterAdded)) in
  restartWatch "otel" id context.Background someOpts closing seeded
    = (Ret false, w'') /\
  forall ss, watchLoop "otel" id context.Background someOpts (closing :: ss) seeded
             = (Ret None, w'').
Proof.
  apply (close_wakeup_ends_watch "otel" id context.Background someOpts closing
           [quiet 5 (ChanItem (podEvent watch.Added "p3")); closeWhileIdle]
           seeded closeWhileIdle [] afterAdded).
  - reflexivity.
  - unfold comesTo. vm_compute. reflexivity.
  - vm_compute. reflexivity.
  - right. split; reflexivity.
Defined.

(** C5. If the event channel is found closed while [Close] has not been
    called, the event processor returns the empty reason, whichever ready
    case the [select] takes, and leaves the membership set as it is; the
    session then reports that another one is wanted and the session loop,
    instead of returning, goes round with that same set: the next thing
    it does is open the next session. *)
Theorem stream_closed_reopens_session
    (ns : string) (fn : MembershipSet -> MembershipSet)
    (ctx : context.Context) (opts : metav1.ListOptions)
    (s : Session) (c0 : list Round) (w0 : World)
    (r : Round) (c : list Round) (w : World) :
  subscription s = inr c0 ->
  comesTo fn (sessionCtx ctx (start s)) c0 (entered ns ctx opts s w0) (r :: c) w ->
  closeChan w = false -> closeCalled r = false ->
  chan r = ChanClosed ->
  exists w',
    runWatchLoop fn (sessionCtx ctx (start s)) (r :: c) w = (Ret "", w') /\
    collectorMap w' = collectorMap w /\
    let w'' := record [LogInfo "Rashmi in collectorWatch restartWatch - end";
                       CancelTimeout (sessionCtx ctx (start s))] w' in
    restartWatch ns fn ctx opts s w0 = (Ret true, w'') /\
    collectorMap w'' = collectorMap w /\
    (forall ss, watchLoop ns fn ctx opts (s :: ss) w0 =
                watchLoop ns fn ctx opts ss w'') /\
    (forall s2 ss,
       extends (record (opening ns ctx opts s2) w'')
               (snd (watchLoop ns fn ctx opts (s :: s2 :: ss) w0))).
Proof.
  intros Hs Hcome Hopen Hnc Hch.
  set (ctx' := sessionCtx ctx (start s)) in *.
  assert (exists wk, await ctx' r w = (Ret wk, w) /\
                     (wk = WakeDone \/ wk = WakeRecv None)) as (wk & Ha & Hwk).
  { destruct (select_open_closed_chan_some ctx' r Hch) as [wk Hsel].
    exists wk. split; [| by eapply select_open_closed_chan].
    unfold await, resolve. rewrite Hnc.
    unfold mbind, M_bind, mret, M_ret. by rewrite Hopen, Hsel. }
  assert (exists w', runWatchLoop fn ctx' (r :: c) w = (Ret "", w') /\
                     collectorMap w' = collectorMap w) as (w' & Hrun & Hmap).
  { rewrite (runWatchLoop_cons fn ctx' r c w w wk Ha).
    destruct Hwk as [-> | ->]; eexists; split; reflexivity. }
  exists w'. split; [exact Hrun |]. split; [exact Hmap |].
  intros w''. unfold comesTo in Hcome. rewrite Hrun in Hcome.
  split; [| split; [exact Hmap | split]].
  - exact (proj1 (session_renewed ns fn ctx opts s [] c0 w0 w' Hs Hcome)).
  - intros ss.
    exact (proj2 (session_renewed ns fn ctx opts s ss c0 w0 w' Hs Hcome)).
  - intros s2 ss.
    rewrite (proj2 (session_renewed ns fn ctx opts s (s2 :: ss) c0 w0 w'
                      Hs Hcome)).
    apply watchLoop_opens.
Qed.

Lemma stream_closed_reopens_session_witness :
  exists w',
    runWatchLoop id (sessionCtx context.Background (start hangup))
      [quiet 9 ChanClosed] afterAdded = (Ret "", w') /\
    collectorMap w' = collectorMap afterAdded /\
    let w'' := record [LogInfo "Rashmi in collectorWatch restartWatch - end";
                       CancelTimeout (sessionCtx context.Background (start hangup))]
                 w' in
    restartWatch "otel" id context.Background someOpts hangup seeded
      = (Ret true, w'') /\
    collectorMap w'' = collectorMap afterAdded /\
    (forall ss,
       watchLoop "otel" id context.Background someOpts (hangup :: ss) seeded =
       watchLoop "otel" id context.Background someOpts ss w'') /\
    (forall s2 ss,
       extends (record (opening "otel" context.Background someOpts s2) w'')
               (snd (watchLoop "otel" id context.Background someOpts
                       (hangup :: s2 :: ss) seeded))).
Proof.
  apply (stream_closed_reopens_session "otel" id context.Background someOpts
           hangup
           [quiet 5 (ChanItem (podEvent watch.Added "p3")); quiet 9 ChanClosed]
           seeded (quiet 9 ChanClosed) [] afterAdded).
  - reflexivity.
  - unfold comesTo. vm_compute. reflexivity.
  - vm_compute. reflexivity.
  - reflexivity.
  - reflexivity.
Defined.

(** C6. If the bootstrap listing fails, the process ends there with exit
    code 1, after logging the error; [Watch] returns nothing, so the
    listing error never reaches the caller as an error value. *)
Theorem list_failure_exits_process
    (ns : string) (selectorString : gmap string string -> string)
    (fn : MembershipSet -> MembershipSet) (ctx : context.Context)
    (labelMap : gmap string string) (sc : Script) (err : string) (w : World) :
  listResult sc = inl err ->
  Watch ns selectorString fn ctx labelMap sc w =
  (Exit 1,
   withMap ∅ (record (listing ns selectorString ctx labelMap ++
                      [LogError err "Pod failure"]) w)) /\
  forall e w', Watch ns selectorString fn ctx labelMap sc w <> (Ret e, w').
Proof.
  intros Hl. rewrite (Watch_list_failed _ _ _ _ _ _ _ _ Hl).
  split; [reflexivity | discriminate].
Qed.

Lemma list_failure_exits_process_witness :
  fst (Watch "otel" (fun _ => "app=collector") id context.Background ∅
         {| listResult := inl "connection refused";
            sessions := [ {| start := 0; subscription := inr [] |} ] |} fresh)
  = Exit 1.
Proof.
  rewrite (proj1 (list_failure_exits_process "otel" (fun _ => "app=collector")
                    id context.Background ∅
                    {| listResult := inl "connection refused";
                       sessions := [ {| start := 0; subscription := inr [] |} ] |}
                    "connection refused" fresh eq_refl)).
  reflexivity.
Defined.

(** C7. If the watch subscription cannot be established, [restartWatch]
    logs the error and reports failure, the session loop ends and [Watch]
    returns [nil]: no further session is attempted, whatever the API
    server would have answered next. *)
Theorem failed_subscription_ends_watch
    (ns : string) (fn : MembershipSet -> MembershipSet)
    (ctx : context.Context) (opts : metav1.ListOptions)
    (s : Session) (ss : list Session) (err : string) (w : World) :
  subscription s = inl err ->
  let w' := record (opening ns ctx opts s ++
                    [LogError err "unable to create collector pod watcher";
                     CancelTimeout (sessionCtx ctx (start s))]) w in
  restartWatch ns fn ctx opts s w = (Ret false, w') /\
  watchLoop ns fn ctx opts (s :: ss) w = (Ret None, w').
Proof.
  intros Hs w'. split.
  - by apply restartWatch_failed.
  - rewrite watchLoop_cons, (restartWatch_failed ns fn ctx opts s err w Hs).
    reflexivity.
Qed.

Lemma failed_subscription_ends_watch_witness :
  fst (Watch "otel" (fun _ => "app=collector") id context.Background ∅
         {| listResult := inr [alive "p1"];
            sessions := [ {| start := 0; subscription := inl "timeout" |};
                          {| start := 1; subscription := inr [] |} ] |} fresh)
  = Ret None.
Proof.
  rewrite (Watch_listed "otel" (fun _ => "app=collector") id context.Background ∅
             {| listResult := inr [alive "p1"];
                sessions := [ {| start := 0; subscription := inl "timeout" |};
                              {| start := 1; subscription := inr [] |} ] |}
             [alive "p1"] fresh eq_refl).
  cbn [sessions].
  rewrite (proj2 (failed_subscription_ends_watch "otel" id context.Background
                    (listOpts (fun _ => "app=collector") ∅)
                    {| start := 0; subscription := inl "timeout" |}
                    [ {| start := 1; subscription := inr [] |} ]
                    "timeout" _ eq_refl)).
  reflexivity.
Defined.



(** C9. A Modified event changes nothing in the membership set: the
    [switch] leaves the whole state as it finds it, and the set that the
    callback is then handed is the set as it was before the event. *)
Theorem modified_event_leaves_set_unchanged
    (fn : MembershipSet -> MembershipSet) (ctx : context.Context)
    (r : Round) (c : list Round) (w w1 : World)
    (event : watch.Event) (pod : v1.Pod) :
  await ctx r w = (Ret (WakeRecv (Some event)), w1) ->
  watch.Object event = watch.PodObject pod ->
  watch.Type_ event = watch.Modified ->
  applyEvent (watch.Type_ event) pod (gauged w1) = (Ret (), gauged w1) /\
  collectorMap (gauged w1) = collectorMap w /\
  runWatchLoop fn ctx (r :: c) w =
  runWatchLoop fn ctx c
    (withMap (fn (collectorMap w))
       (record [Callback (collectorMap w)] (gauged w1))).
Proof.
  intros Ha Ho Hty.
  destruct (await_map _ _ _ _ _ Ha) as (Hm & _ & _).
  assert (applyEvent (watch.Type_ event) pod (gauged w1) = (Ret (), gauged w1))
    as Hap by (rewrite Hty; reflexivity).
  repeat split; [exact Hap | exact Hm |].
  rewrite (runWatchLoop_pod fn ctx r c w w1 _ event pod Ha Ho Hap).
  simpl. by rewrite Hm.
Qed.

Lemma modified_event_leaves_set_unchanged_witness :
  runWatchLoop id context.Background
    [quiet 5 (ChanItem (podEvent watch.Modified "p1"))]
    (withMap {["p1" := allocation.NewCollector "p1"]} fresh) =
  runWatchLoop id context.Background []
    (withMap {["p1" := allocation.NewCollector "p1"]}
       (record [Callback {["p1" := allocation.NewCollector "p1"]}]
          (gauged (withMap {["p1" := allocation.NewCollector "p1"]} fresh)))).
Proof.
  exact (proj2 (proj2 (modified_event_leaves_set_unchanged id context.Background
           (quiet 5 (ChanItem (podEvent watch.Modified "p1"))) []
           (withMap {["p1" := allocation.NewCollector "p1"]} fresh)
           (withMap {["p1" := allocation.NewCollector "p1"]} fresh)
           (podEvent watch.Modified "p1") (alive "p1")
           eq_refl eq_refl eq_refl))).
Defined.



(** * Further properties of the watcher *)

(** ** Helper facts *)

Lemma await_quiet (ctx : context.Context) (r : Round) (w : World) (wk : Wake) :
  closeCalled r = false -> select (closeChan w) ctx r = Some wk ->
  await ctx r w = (Ret wk, w).
Proof.
  intros Hnc Hsel. unfold await, resolve. rewrite Hnc.
  unfold mbind, M_bind, mret, M_ret. by rewrite Hsel.
Qed.

(** Whatever comes of a wait, the world is the one before it, up to the
    close channel. *)
Lemma await_world (ctx : context.Context) (r : Round) (w : World) :
  snd (await ctx r w) = w \/ snd (await ctx r w) = withClosed w.
Proof.
  unfold await, resolve, Close. unfold mbind, M_bind, mret, M_ret.
  destruct (closeCalled r); simpl.
  - destruct (closeChan w); simpl; [by left |].
    destruct (select true ctx r); simpl; by right.
  - destruct (select (closeChan w) ctx r); simpl; by left.
Qed.

Lemma applyEvent_updated (ty : watch.EventType) (pod : v1.Pod) (w : World) :
  exists w', applyEvent ty pod w = (Ret (), w') /\
             collectorMap w' = updated ty pod (collectorMap w) /\
             closeChan w' = closeChan w /\
             collectorsDiscovered w' = collectorsDiscovered w /\
             callbacks (trace w') = callbacks (trace w).
Proof.
  destruct ty; simpl; eexists; (split; [reflexivity |]); simpl;
    repeat split; try reflexivity.
  unfold callbacks. rewrite omap_app. simpl. by rewrite app_nil_r.
Qed.

Lemma callbacks_record_callback (m : MembershipSet) (w : World) :
  callbacks (trace (record [Callback m] w)) = callbacks (trace w) ++ [m].
Proof. unfold callbacks. simpl. by rewrite omap_app. Qed.



(** ** The properties *)

(** X1. A received event whose object is not a pod ends the session
    without touching the membership set and without a callback: the event
    processor logs, returns the empty reason, the session reports that
    another one is wanted and the session loop goes round. *)
Theorem unexpected_payload_renews_session
    (ns : string) (fn : MembershipSet -> MembershipSet)
    (ctx : context.Context) (opts : metav1.ListOptions)
    (s : Session) (c0 : list Round) (w0 : World)
    (r : Round) (c : list Round) (w w1 : World)
    (event : watch.Event) (kind : string) :
  subscription s = inr c0 ->
  comesTo fn (sessionCtx ctx (start s)) c0 (entered ns ctx opts s w0) (r :: c) w ->
  await (sessionCtx ctx (start s)) r w = (Ret (WakeRecv (Some event)), w1) ->
  watch.Object event = watch.OtherObject kind ->
  let w' := record [LogInfo "No pod found in event Object. Restarting watch routine"]
              (gauged w1) in
  runWatchLoop fn (sessionCtx ctx (start s)) (r :: c) w = (Ret "", w') /\
  collectorMap w' = collectorMap w /\
  callbacks (trace w') = callbacks (trace w) /\
  let w'' := record [LogInfo "Rashmi in collectorWatch restartWatch - end";
                     CancelTimeout (sessionCtx ctx (start s))] w' in
  restartWatch ns fn ctx opts s w0 = (Ret true, w'') /\
  forall ss, watchLoop ns fn ctx opts (s :: ss) w0 =
             watchLoop ns fn ctx opts ss w''.
Proof.
  intros Hs Hcome Ha Ho w'.
  destruct (await_map _ _ _ _ _ Ha) as (Hm & Ht & _).
  assert (runWatchLoop fn (sessionCtx ctx (start s)) (r :: c) w = (Ret "", w'))
    as Hrun by (rewrite (runWatchLoop_cons _ _ _ _ _ _ _ Ha), Ho; reflexivity).
  split; [exact Hrun |]. split; [exact Hm |]. split.
  - unfold w'. simpl. rewrite Ht. unfold callbacks. rewrite omap_app. simpl.
    by rewrite app_nil_r.
  - intros w''. unfold comesTo in Hcome. rewrite Hrun in Hcome. split.
    + exact (proj1 (session_renewed ns fn ctx opts s [] c0 w0 w' Hs Hcome)).
    + intros ss.
      exact (proj2 (session_renewed ns fn ctx opts s ss c0 w0 w' Hs Hcome)).
Qed.

Lemma unexpected_payload_renews_session_witness :
  fst (restartWatch "otel" id context.Background someOpts
         {| start := 0;
            subscription := inr [quiet 5 (ChanItem (podEvent watch.Added "p3"));
                                 strayStatus 9] |} seeded) = Ret true.
Proof.
  destruct (unexpected_payload_renews_session "otel" id context.Background
              someOpts
              {| start := 0;
                 subscription := inr [quiet 5 (ChanItem (podEvent watch.Added "p3"));
                                      strayStatus 9] |}
              [quiet 5 (ChanItem (podEvent watch.Added "p3")); strayStatus 9]
              seeded (strayStatus 9) [] afterAdded afterAdded
              {| watch.Type_ := watch.Error;
                 watch.Object := watch.OtherObject "Status" |} "Status"
              eq_refl
              ltac:(unfold comesTo; vm_compute; reflexivity)
              ltac:(vm_compute; reflexivity)
              eq_refl) as (_ & _ & _ & Hr & _).
  by rewrite Hr.
Defined.










(** X7. [Watch] has one return value, [nil]: whatever the API server,
    the runtime and the caller of [Close] do, a run of [Watch] that
    returns, returns no error. *)
Theorem watch_returns_only_nil
    (ns : string) (selectorString : gmap string string -> string)
    (fn : MembershipSet -> MembershipSet) (ctx : context.Context)
    (labelMap : gmap string string) (sc : Script) (w w' : World)
    (e : option string) :
  Watch ns selectorString fn ctx labelMap sc w = (Ret e, w') -> e = None.
Proof.
  destruct (listResult sc) as [err | items] eqn:Hl.
  - rewrite (Watch_list_failed _ _ _ _ _ _ _ _ Hl). discriminate.
  - rewrite (Watch_listed _ _ _ _ _ _ _ _ Hl). apply watchLoop_returns_nil.
Qed.

Lemma watch_returns_only_nil_witness :
  (None : option string) = None.
Proof.
  apply (watch_returns_only_nil "otel" (fun _ => "app=collector") id
           context.Background ∅
           {| listResult := inr [alive "p1"];
              sessions := [ {| start := 0; subscription := inl "timeout" |} ] |}
           fresh
           (snd (Watch "otel" (fun _ => "app=collector") id context.Background ∅
                   {| listResult := inr [alive "p1"];
                      sessions := [ {| start := 0;
                                       subscription := inl "timeout" |} ] |}
                   fresh))
           None).
  vm_compute. reflexivity.
Defined.

(** ** Names as keys *)

Lemma keyed_empty : keyedByName ∅.
Proof. intros k c H. by rewrite lookup_empty in H. Qed.

Lemma keyed_insert (m : MembershipSet) (n : string) :
  keyedByName m -> keyedByName (<[n := allocation.NewCollector n]> m).
Proof.
  intros Hm k c. destruct (decide (n = k)) as [-> | Hne].
  - rewrite lookup_insert_eq. by intros [= <-].
  - rewrite lookup_insert_ne by done. apply Hm.
Qed.

Lemma keyed_delete (m : MembershipSet) (n : string) :
  keyedByName m -> keyedByName (delete n m).
Proof.
  intros Hm k c. destruct (decide (n = k)) as [-> | Hne].
  - by rewrite lookup_delete_eq.
  - rewrite lookup_delete_ne by done. apply Hm.
Qed.

Lemma keyed_updated (ty : watch.EventType) (pod : v1.Pod) (m : MembershipSet) :
  keyedByName m -> keyedByName (updated ty pod m).
Proof.
  destruct ty; simpl; auto using keyed_insert, keyed_delete.
Qed.

Lemma keyed_seed (items : list v1.Pod) (m : MembershipSet) :
  keyedByName m -> keyedByName (seed items m).
Proof.
  revert m. induction items as [|pod items IH]; intros m Hm; simpl; [done |].
  apply IH. destruct (v1.DeletionTimestamp pod); [done |].
  by apply keyed_insert.
Qed.

Lemma wellKeyed_record (acts : list Action) (w : World) :
  callbacks acts = [] -> wellKeyed w -> wellKeyed (record acts w).
Proof.
  intros Ha [Hm Ht]. split; [exact Hm |].
  simpl. unfold callbacks in *. by rewrite omap_app, Ha, app_nil_r.
Qed.

Lemma wellKeyed_await (ctx : context.Context) (r : Round) (w : World) :
  wellKeyed w -> wellKeyed (snd (await ctx r w)).
Proof.
  intros Hw. by destruct (await_world ctx r w) as [-> | ->].
Qed.

Lemma wellKeyed_called (fn : MembershipSet -> MembershipSet) (w : World) :
  (forall m, keyedByName m -> keyedByName (fn m)) ->
  wellKeyed w ->
  wellKeyed (withMap (fn (collectorMap w)) (record [Callback (collectorMap w)] w)).
Proof.
  intros Hfn [Hm Ht]. split; [by apply Hfn |].
  change (Forall keyedByName
            (callbacks (trace (record [Callback (collectorMap w)] w)))).
  rewrite callbacks_record_callback. apply Forall_app. split; [exact Ht |].
  by constructor.
Qed.

Section Keyed.
Variable ns : string.
Variable fn : MembershipSet -> MembershipSet.
Hypothesis fn_keyed : forall m, keyedByName m -> keyedByName (fn m).

Lemma wellKeyed_runWatchLoop (ctx : context.Context) (c : list Round) (w : World) :
  wellKeyed w -> wellKeyed (snd (runWatchLoop fn ctx c w)).
Proof.
  revert w. induction c as [|r c IH]; intros w Hw; [exact Hw |].
  rewrite runWatchLoop_unfold.
  pose proof (wellKeyed_await ctx r (gauged w) Hw) as Ha.
  destruct (await ctx r (gauged w)) as [[[| |[e|]]| | |] w1];
    simpl in Ha; try exact Ha.
  - destruct (watch.Object e) as [pod | kind].
    + destruct (applyEvent_updated (watch.Type_ e) pod w1)
        as (w2 & Hap & Hm2 & _ & _ & Ht2).
      unfold mbind, M_bind, callFn. rewrite Hap.
      apply IH, wellKeyed_called; [exact fn_keyed |].
      destruct Ha as [Hm Ht]. split.
      * rewrite Hm2. by apply keyed_updated.
      * by rewrite Ht2.
    + by apply wellKeyed_record.
  - by apply wellKeyed_record.
Qed.

Lemma wellKeyed_restartWatch (ctx : context.Context)
    (opts : metav1.ListOptions) (s : Session) (w : World) :
  wellKeyed w -> wellKeyed (snd (restartWatch ns fn ctx opts s w)).
Proof.
  intros Hw. destruct (subscription s) as [err | c] eqn:Hs.
  - rewrite (restartWatch_failed ns fn ctx opts s err w Hs).
    by apply wellKeyed_record.
  - rewrite (restartWatch_opened ns fn ctx opts s c w Hs).
    assert (wellKeyed (snd (runWatch fn (sessionCtx ctx (start s)) c
                              (entered ns ctx opts s w)))) as Hr.
    { unfold runWatch, mbind, M_bind, emit.
      apply wellKeyed_runWatchLoop.
      apply wellKeyed_record; [reflexivity |].
      by apply wellKeyed_record. }
    destruct (runWatch fn (sessionCtx ctx (start s)) c (entered ns ctx opts s w))
      as [[msg| | |] w']; simpl in Hr; try exact Hr.
    destruct (bool_decide (msg ≠ "")); by apply wellKeyed_record.
Qed.

Lemma wellKeyed_watchLoop (ctx : context.Context)
    (opts : metav1.ListOptions) (ss : list Session) (w : World) :
  wellKeyed w -> wellKeyed (snd (watchLoop ns fn ctx opts ss w)).
Proof.
  revert w. induction ss as [|s ss IH]; intros w Hw; [exact Hw |].
  rewrite watchLoop_cons.
  pose proof (wellKeyed_restartWatch ctx opts s w Hw) as Hr.
  destruct (restartWatch ns fn ctx opts s w) as [[[|]| | |] w'];
    simpl in Hr; try exact Hr.
  by apply IH.
Qed.

End Keyed.

(** X8. Names stay the keys: if the callback, when it touches the set at
    all, leaves it keyed by name, then every set that [Watch] hands to
    the callback holds, under each name, the collector of that name, from
    the initial set on and through every session. *)
Theorem callback_sets_keyed_by_name
    (ns : string) (selectorString : gmap string string -> string)
    (fn : MembershipSet -> MembershipSet) (ctx : context.Context)
    (labelMap : gmap string string) (sc : Script) (w : World) :
  (forall m, keyedByName m -> keyedByName (fn m)) ->
  Forall keyedByName (callbacks (trace w)) ->
  Forall keyedByName
    (callbacks (trace (snd (Watch ns selectorString fn ctx labelMap sc w)))).
Proof.
  intros Hfn Ht.
  destruct (listResult sc) as [err | items] eqn:Hl.
  - rewrite (Watch_list_failed _ _ _ _ _ _ _ _ Hl). simpl.
    unfold callbacks in *. rewrite omap_app. simpl. by rewrite app_nil_r.
  - rewrite (Watch_listed _ _ _ _ _ _ _ _ Hl).
    apply (wellKeyed_watchLoop ns fn Hfn). split.
    + apply Hfn, keyed_seed, keyed_empty.
    + simpl. unfold callbacks in *. rewrite omap_app. simpl.
      apply Forall_app. split; [exact Ht |].
      constructor; [| constructor]. apply keyed_seed, keyed_empty.
Qed.

Lemma callback_sets_keyed_by_name_witness :
  Forall keyedByName
    (callbacks (trace (snd (Watch "otel" (fun _ => "app=collector") id
                              context.Background ∅
                              {| listResult := inr [alive "p1"; terminating "p2"];
                                 sessions := [hangup; closing] |} fresh)))).
Proof.
  apply (callback_sets_keyed_by_name "otel" (fun _ => "app=collector") id
           context.Background ∅
           {| listResult := inr [alive "p1"; terminating "p2"];
              sessions := [hangup; closing] |} fresh).
  - intros m Hm. exact Hm.
  - constructor.
Defined.

(** ** Time and order *)

Lemma select_not_done (closed : bool) (ctx : context.Context) (r : Round) :
  ctxDone ctx r = false -> select closed ctx r <> Some WakeDone.
Proof.
  intros Hd Hsel. unfold select, readyCases in Hsel. rewrite Hd in Hsel.
  apply list_elem_of_lookup_2 in Hsel.
  destruct closed, (chan r); simpl in Hsel;
    repeat (apply elem_of_cons in Hsel as [Hsel | Hsel]; [discriminate |]);
    by apply elem_of_nil in Hsel.
Qed.

Lemma select_nothing_ready (ctx : context.Context) (r : Round) :
  ctxDone ctx r = false -> chan r = ChanEmpty -> select false ctx r = None.
Proof.
  intros Hd Hc. unfold select, readyCases. by rewrite Hd, Hc.
Qed.

(** X9. No session times out early: when the caller's context has no
    deadline and is not cancelled, then before 15 minutes have passed
    since the start of the session its context is not done and no
    wake-up is taken on it; an idle event processor (close channel open,
    no event) stays blocked. *)
Theorem no_timeout_before_fifteen_minutes
    (fn : MembershipSet -> MembershipSet) (ctx : context.Context)
    (s : Session) (r : Round) :
  context.Deadline ctx = None ->
  cancelled r = false ->
  now r < start s + 15 * 60 * 1000000000 ->
  ctxDone (sessionCtx ctx (start s)) r = false /\
  (forall w wk w1, await (sessionCtx ctx (start s)) r w = (Ret wk, w1) ->
                   wk <> WakeDone) /\
  (forall c w, closeChan w = false -> closeCalled r = false ->
               chan r = ChanEmpty ->
               runWatchLoop fn (sessionCtx ctx (start s)) (r :: c) w
               = (Pending, gauged w)).
Proof.
  intros Hdl Hcan Hnow.
  assert (ctxDone (sessionCtx ctx (start s)) r = false) as Hd.
  { unfold ctxDone, sessionCtx, context.expired, context.WithTimeout.
    rewrite Hcan, Hdl. simpl.
    change watcherTimeout with (15 * 60 * 1000000000).
    apply Z.leb_gt. lia. }
  split; [exact Hd |]. split.
  - intros w wk w1 Ha ->.
    destruct (await_inv _ _ _ _ _ Ha) as [_ Hsel].
    by apply (select_not_done _ _ _ Hd) in Hsel.
  - intros c w Hopen Hnc Hch. rewrite runWatchLoop_unfold.
    unfold await, resolve. rewrite Hnc.
    unfold mbind, M_bind, mret, M_ret. simpl. rewrite Hopen.
    by rewrite (select_nothing_ready _ _ Hd Hch).
Qed.

Lemma no_timeout_before_fifteen_minutes_witness :
  runWatchLoop id (sessionCtx context.Background (start hangup))
    [quiet 899999999999 ChanEmpty] seeded = (Pending, gauged seeded).
Proof.
  destruct (no_timeout_before_fifteen_minutes id context.Background hangup
              (quiet 899999999999 ChanEmpty) eq_refl eq_refl eq_refl)
    as (_ & _ & H).
  apply H; reflexivity.
Defined.

(** X10. The order of the bootstrap listing does not matter: two
    listings that hold the same pods, in any order, seed the same
    membership set. *)
Theorem bootstrap_order_irrelevant (items items' : list v1.Pod) (w : World) :
  items ≡ₚ items' ->
  bootstrap items w = bootstrap items' w.
Proof.
  intros Hp. rewrite !bootstrap_run. do 2 f_equal.
  apply map_eq. intros n.
  destruct (decide (Exists (fun pod => v1.Name pod = n /\
                                       v1.DeletionTimestamp pod = None) items))
    as [He | Hne].
  - apply Exists_exists in He as (pod & Hin & <- & Hd).
    rewrite (seed_alive items _ pod Hin Hd).
    symmetry. apply seed_alive; [| exact Hd]. by rewrite <- Hp.
  - rewrite !seed_other; [done | |].
    + intros pod Hin Hn Hd. apply Hne, Exists_exists.
      exists pod. rewrite Hp. auto.
    + intros pod Hin Hn Hd. apply Hne, Exists_exists. eauto.
Qed.

Lemma bootstrap_order_irrelevant_witness :
  bootstrap [alive "p1"; terminating "p3"; alive "p2"] fresh =
  bootstrap [alive "p2"; alive "p1"; terminating "p3"] fresh.
Proof.
  apply bootstrap_order_irrelevant.
  symmetry.
  exact (Permutation_cons_append [alive "p1"; terminating "p3"] (alive "p2")).
Defined.

(** X11. Cancelling the caller's context does not by itself make [Watch]
    return: an idle event processor woken by the cancellation returns the
    empty reason, so the session reports that another one is wanted and
    the session loop makes another [Watch] call; [Watch] returns [nil]
    once that call fails. *)
Theorem caller_cancel_reopens_session
    (ns : string) (fn : MembershipSet -> MembershipSet)
    (ctx : context.Context) (opts : metav1.ListOptions)
    (s : Session) (c0 : list Round) (w0 : World)
    (r : Round) (c : list Round) (w : World) :
  subscription s = inr c0 ->
  comesTo fn (sessionCtx ctx (start s)) c0 (entered ns ctx opts s w0) (r :: c) w ->
  cancelled r = true ->
  closeChan w = false -> closeCalled r = false -> chan r = ChanEmpty ->
  runWatchLoop fn (sessionCtx ctx (start s)) (r :: c) w = (Ret "", gauged w) /\
  let w'' := record [LogInfo "Rashmi in collectorWatch restartWatch - end";
                     CancelTimeout (sessionCtx ctx (start s))] (gauged w) in
  restartWatch ns fn ctx opts s w0 = (Ret true, w'') /\
  (forall ss, watchLoop ns fn ctx opts (s :: ss) w0 =
              watchLoop ns fn ctx opts ss w'') /\
  (forall s2 ss err,
     subscription s2 = inl err ->
     watchLoop ns fn ctx opts (s :: s2 :: ss) w0 =
     (Ret None,
      record (opening ns ctx opts s2 ++
              [LogError err "unable to create collector pod watcher";
               CancelTimeout (sessionCtx ctx (start s2))]) w'')).
Proof.
  intros Hs Hcome Hcan Hopen Hnc Hch.
  set (ctx' := sessionCtx ctx (start s)) in *.
  assert (ctxDone ctx' r = true) as Hd by (unfold ctxDone; by rewrite Hcan).
  assert (await ctx' r w = (Ret WakeDone, w)) as Ha.
  { apply await_quiet; [done |]. rewrite Hopen. by apply select_only_done. }
  pose proof (runWatchLoop_cons fn ctx' r c w w _ Ha) as Hrun.
  cbn iota in Hrun. unfold comesTo in Hcome. rewrite Hrun in Hcome.
  split; [exact Hrun |]. intros w''.
  pose proof (session_renewed ns fn ctx opts s) as Hren.
  split; [exact (proj1 (Hren [] c0 w0 _ Hs Hcome)) |]. split.
  - intros ss. exact (proj2 (Hren ss c0 w0 _ Hs Hcome)).
  - intros s2 ss err Hs2.
    rewrite (proj2 (Hren (s2 :: ss) c0 w0 _ Hs Hcome)).
    rewrite watchLoop_cons, (restartWatch_failed ns fn ctx opts s2 err _ Hs2).
    reflexivity.
Qed.

Lemma caller_cancel_reopens_session_witness :
  fst (watchLoop "otel" id context.Background someOpts
         [ {| start := 0;
              subscription := inr [quiet 5 (ChanItem (podEvent watch.Added "p3"));
                                   callerCancelled 9] |};
           {| start := 10; subscription := inl "context canceled" |};
           hangup ] seeded) = Ret None.
Proof.
  destruct (caller_cancel_reopens_session "otel" id context.Background someOpts
              {| start := 0;
                 subscription := inr [quiet 5 (ChanItem (podEvent watch.Added "p3"));
                                      callerCancelled 9] |}
              [quiet 5 (ChanItem (podEvent watch.Added "p3")); callerCancelled 9]
              seeded (callerCancelled 9) [] afterAdded
              eq_refl
              ltac:(unfold comesTo; vm_compute; reflexivity)
              eq_refl
              ltac:(vm_compute; reflexivity)
              eq_refl eq_refl) as (_ & _ & _ & H).
  by rewrite (H {| start := 10; subscription := inl "context canceled" |}
                [hangup] "context canceled" eq_refl).
Defined.

(** ** Closing twice, and the gauge before the first wait *)

(** X12. [Close] works once: called again while a session's event
    processor waits, with the close channel already closed, it panics;
    the process ends there, the event processor does not return and the
    deferred cancellation of the session is not run. *)
Theorem second_close_panics
    (ns : string) (fn : MembershipSet -> MembershipSet)
    (ctx : context.Context) (opts : metav1.ListOptions)
    (s : Session) (c0 : list Round) (w0 : World)
    (r : Round) (c : list Round) (w : World) :
  subscription s = inr c0 ->
  comesTo fn (sessionCtx ctx (start s)) c0 (entered ns ctx opts s w0) (r :: c) w ->
  closeChan w = true -> closeCalled r = true ->
  Close w = (Panic "close of closed channel", w) /\
  runWatchLoop fn (sessionCtx ctx (start s)) (r :: c) w
    = (Panic "close of closed channel", gauged w) /\
  restartWatch ns fn ctx opts s w0 = (Panic "close of closed channel", gauged w) /\
  forall ss, watchLoop ns fn ctx opts (s :: ss) w0
             = (Panic "close of closed channel", gauged w).
Proof.
  intros Hs Hcome Hclosed Hcall.
  assert (runWatchLoop fn (sessionCtx ctx (start s)) (r :: c) w
          = (Panic "close of closed channel", gauged w)) as Hrun.
  { rewrite runWatchLoop_unfold. unfold await, Close. rewrite Hcall.
    unfold mbind, M_bind. simpl. by rewrite Hclosed. }
  unfold comesTo in Hcome. rewrite Hrun in Hcome.
  assert (restartWatch ns fn ctx opts s w0
          = (Panic "close of closed channel", gauged w)) as Hres
    by (by rewrite (restartWatch_opened ns fn ctx opts s c0 w0 Hs), Hcome).
  split; [by unfold Close; rewrite Hclosed |].
  split; [exact Hrun |]. split; [exact Hres |].
  intros ss. by rewrite watchLoop_cons, Hres.
Qed.

Lemma second_close_panics_witness :
  fst (watchLoop "otel" id context.Background someOpts
         [ {| start := 0; subscription := inr [eventRace; closeWhileIdle] |};
           hangup ] closedWorld) = Panic "close of closed channel".
Proof.
  destruct (second_close_panics "otel" id context.Background someOpts
              {| start := 0; subscription := inr [eventRace; closeWhileIdle] |}
              [eventRace; closeWhileIdle]
              closedWorld closeWhileIdle [] (withClosed afterAdded)
              eq_refl
              ltac:(unfold comesTo; vm_compute; reflexivity)
              eq_refl eq_refl) as (_ & _ & _ & H).
  by rewrite H.
Defined.

(** X13. The gauge is written by the event processor only: when the
    first watch subscription cannot be established, [Watch] returns with
    the gauge as it found it, whatever the bootstrap listing held. *)
Theorem gauge_untouched_without_session
    (ns : string) (selectorString : gmap string string -> string)
    (fn : MembershipSet -> MembershipSet) (ctx : context.Context)
    (labelMap : gmap string string)
    (items : list v1.Pod) (s : Session) (ss : list Session)
    (err : string) (w : World) :
  subscription s = inl err ->
  let w' := snd (Watch ns selectorString fn ctx labelMap
                   {| listResult := inr items; sessions := s :: ss |} w) in
  collectorsDiscovered w' = collectorsDiscovered w /\
  collectorMap w' = fn (seed items ∅).
Proof.
  intros Hs w'. unfold w'.
  rewrite (Watch_listed ns selectorString fn ctx labelMap
             {| listResult := inr items; sessions := s :: ss |} items w eq_refl).
  cbn [sessions].
  rewrite watchLoop_cons, (restartWatch_failed ns fn ctx _ s err _ Hs).
  split; reflexivity.
Qed.

Lemma gauge_untouched_without_session_witness :
  collectorsDiscovered
    (snd (Watch "otel" (fun _ => "app=collector") id context.Background ∅
            {| listResult := inr [alive "p1"; alive "p2"];
               sessions := [ {| start := 0; subscription := inl "timeout" |} ] |}
            fresh)) = collectorsDiscovered fresh.
Proof.
  exact (proj1 (gauge_untouched_without_session "otel" (fun _ => "app=collector")
                  id context.Background ∅ [alive "p1"; alive "p2"]
                  {| start := 0; subscription := inl "timeout" |} []
                  "timeout" fresh eq_refl)).
Defined.
